(** * WordInsertionMaskedLM: masked-language-model guided word insertion

    A shallow embedding of
    [textattack/transformations/word_insertions/word_insertion_masked_lm.py]
    together with the properties of its constructor, of [_encode_text],
    of [_get_new_words] and of [extra_repr_keys].

    Conventions of the embedding.
    - Python exceptions are values of [exn]; a computation that may raise
      returns a [result].
    - Code that touches shared objects runs in the monad [M S], a state
      monad over [S] layered with [result].
    - Tensor entries are modelled as rationals ([Q]); comparisons on them
      are exact.  Token ids are integers ([Z]); positions are [nat].
    - The collaborators that live outside the file (the tokenizer, the
      language model, [torch.softmax], [utils.is_one_word],
      [utils.check_if_subword], the model hub) are parameters. *)

From Stdlib Require Import QArith Qround Ascii String.
From stdpp Require Import base option list sorting gmap strings.

Local Open Scope string_scope.
Local Open Scope Z_scope.
Local Open Scope list_scope.

(** ** Exceptions and results *)

Inductive exn : Type :=
  | TypeError
  | ValueError
  | IndexError
  | AttributeError
  | OSError
  | ReferenceError.

Inductive result (A : Type) : Type :=
  | Ok (a : A)
  | Raise (e : exn).
Arguments Ok {A} a.
Arguments Raise {A} e.

(** ** The state-and-exception monad *)

Definition M (S A : Type) : Type := S -> S * result A.

Definition ret {S A} (a : A) : M S A := fun s => (s, Ok a).

Definition raise {S A} (e : exn) : M S A := fun s => (s, Raise e).

Definition bind {S A B} (m : M S A) (k : A -> M S B) : M S B :=
  fun s =>
    match m s with
    | (s', Ok a) => k a s'
    | (s', Raise e) => (s', Raise e)
    end.

Definition lift {S A} (r : result A) : M S A := fun s => (s, r).

Declare Scope py_scope.
Delimit Scope py_scope with py.
Notation "x <- m ;; k" := (bind m (fun x => k))
  (at level 100, m at next level, right associativity) : py_scope.
Notation "m ;;; k" := (bind m (fun _ => k))
  (at level 100, right associativity) : py_scope.
Local Open Scope py_scope.

(** ** Python sequence primitives *)

(** [seq[i]] for a non-negative position: [IndexError] out of range. *)
Definition py_getitem {A} (l : list A) (i : nat) : result A :=
  match l !! i with
  | Some a => Ok a
  | None => Raise IndexError
  end.

(** [list.index(x)]: the first position holding [x], [ValueError] when
    there is none. *)
Fixpoint py_index (l : list Z) (x : Z) : result nat :=
  match l with
  | [] => Raise ValueError
  | y :: l' =>
      if Z.eqb y x then Ok O
      else match py_index l' x with
           | Ok i => Ok (S i)
           | Raise e => Raise e
           end
  end.

(** ** Tensors *)

(** Comparison [a > b] on tensor entries, exact on rationals.  The code
    compares a float32 entry with the threshold rounded to float32; the
    rounding is not modelled. *)
Definition Qgtb (a b : Q) : bool := negb (Qle_bool a b).

(** Key order used by [argsort]: position [i] comes no later than [j]
    when its entry is no larger. *)
Definition key_le (v : list Q) (i j : nat) : Prop :=
  Is_true (Qle_bool (nth i v 0%Q) (nth j v 0%Q)).

#[global] Instance key_le_dec (v : list Q) : RelDecision (key_le v).
Proof. intros i j. unfold key_le. apply _. Defined.

(** [torch.argsort(v)] with its default arguments: the positions of [v]
    in ASCENDING order of their entries.  The relative order of equal
    entries is left open by torch; here a merge sort fixes one, which
    need not be the one torch produces. *)
Definition argsort (v : list Q) : list nat :=
  merge_sort (key_le v) (seq 0 (length v)).

(** ** External collaborators *)

(** What [encode_plus(..., return_tensors="pt")] yields: a batch of id
    rows (and the attention mask that travels with it). *)
Record Encoding : Type := {
  input_ids : list (list Z);
  attention_mask : list (list Z)
}.

(** The [AutoTokenizer] object. *)
Record Tokenizer : Type := {
  mask_token : string;
  mask_token_id : Z;
  (* encode_plus(text, max_length=.., truncation=True,
                 padding="max_length", return_tensors="pt") *)
  encode_plus : string -> Z -> Encoding;
  convert_ids_to_tokens : Z -> string
}.

(** The [AutoModelForMaskedLM] object: calling it on an encoding gives a
    tuple whose first component is the logits tensor, indexed
    [batch, position, vocabulary]. *)
Record LanguageModel : Type := {
  forward_logits : Encoding -> list (list (list Q));
  class_name : string
}.

(** ** AttackedText objects and the world they live in *)

Abbreviation loc := positive.

Inductive history_tag : Type := Original | Modified.

Record AttackedText : Type := {
  words : list string;
  history : list history_tag;
  parent : option loc
}.

(** Modelled from the spec: the [text] property of [AttackedText], whose
    class is not part of the sources at hand; the surface string is
    rebuilt from the word sequence. *)
Definition text (t : AttackedText) : string :=
  String.concat " " (words t).

(** The shared mutable world: the objects reachable by reference, and the
    log of invocations of the masked-language-model oracle. *)
Record World : Type := {
  heap : gmap loc AttackedText;
  lm_calls : list Encoding
}.

(** Modelled from the spec: [AttackedText.insert_text_before_word_index],
    whose class is not part of the sources at hand.  It returns a NEW
    AttackedText with the text inserted before word [index], that word
    position tagged as modified, and a reference to its parent; the
    receiver is left as it was.  An index outside the word sequence
    raises [IndexError], as indexing the word sequence does. *)
Definition insert_text_before_word_index
    (self : loc) (index : Z) (new_text : string) : M World loc :=
  fun w =>
    match heap w !! self with
    | None => (w, Raise ReferenceError)
    | Some t =>
        if (0 <=? index) && (index <? Z.of_nat (length (words t))) then
          let i := Z.to_nat index in
          let t' := {| words := take i (words t) ++ new_text :: drop i (words t);
                       history := take i (history t) ++ Modified :: drop i (history t);
                       parent := Some self |} in
          let r := fresh (dom (heap w)) in
          ({| heap := <[r := t']> (heap w); lm_calls := lm_calls w |}, Ok r)
        else (w, Raise IndexError)
    end.

(** Reading [obj.text] through a reference. *)
Definition get_text (r : loc) : M World string :=
  fun w =>
    match heap w !! r with
    | Some t => (w, Ok (text t))
    | None => (w, Raise ReferenceError)
    end.

(** An object of the world after a call is either one that was there
    before, unchanged, or a new one derived from [self] that holds
    [new_text] among its words. *)
Definition old_or_derived (w : World) (self : loc) (new_text : string)
    (r : loc) (t : AttackedText) : Prop :=
  heap w !! r = Some t \/
  (heap w !! r = None /\ parent t = Some self /\ new_text ∈ words t).

(** ** The transformation object *)

Record WordInsertionMaskedLM : Type := {
  max_length : Z;
  max_candidates : Z;
  min_confidence : Q;
  _lm_tokenizer : Tokenizer;
  _language_model : LanguageModel;
  masked_lm_name : string
}.

(** The same object with another [max_candidates], and with another
    language model. *)
Definition set_max_candidates (self : WordInsertionMaskedLM) (k : Z)
    : WordInsertionMaskedLM :=
  {| max_length := max_length self;
     max_candidates := k;
     min_confidence := min_confidence self;
     _lm_tokenizer := _lm_tokenizer self;
     _language_model := _language_model self;
     masked_lm_name := masked_lm_name self |}.

Definition set_language_model (self : WordInsertionMaskedLM) (m : LanguageModel)
    : WordInsertionMaskedLM :=
  {| max_length := max_length self;
     max_candidates := max_candidates self;
     min_confidence := min_confidence self;
     _lm_tokenizer := _lm_tokenizer self;
     _language_model := m;
     masked_lm_name := masked_lm_name self |}.

(** ** Python values seen by the constructor *)

Inductive pyclass : Type :=
  | ClsInt | ClsFloat | ClsStr | ClsTokenizer | ClsModel.

#[global] Instance pyclass_eq_dec : EqDecision pyclass.
Proof. solve_decision. Defined.

Inductive pyval : Type :=
  | VInt (z : Z)
  | VFloat (q : Q)
  | VStr (s : string)
  | VTokenizer (t : Tokenizer)
  | VModel (m : LanguageModel)
  | VClass (c : pyclass).

Definition type_of (v : pyval) : option pyclass :=
  match v with
  | VInt _ => Some ClsInt
  | VFloat _ => Some ClsFloat
  | VStr _ => Some ClsStr
  | VTokenizer _ => Some ClsTokenizer
  | VModel _ => Some ClsModel
  | VClass _ => None
  end.

(** The builtin [isinstance], applied to its positional arguments: it
    takes exactly two, the second a class; any other call raises
    [TypeError]. *)
Definition py_isinstance (args : list pyval) : result bool :=
  match args with
  | [obj; VClass c] => Ok (bool_decide (type_of obj = Some c))
  | [_; _] => Raise TypeError
  | _ => Raise TypeError
  end.

(** [obj.__class__.__name__]. *)
Definition py_class_name (v : pyval) : string :=
  match v with
  | VInt _ => "int"
  | VFloat _ => "float"
  | VStr _ => "str"
  | VTokenizer _ => "PreTrainedTokenizerFast"
  | VModel m => class_name m
  | VClass _ => "type"
  end.

(** The object under construction: its attribute dictionary, and the log
    of models built through [AutoModelForMaskedLM.from_pretrained]. *)
Record ObjectState : Type := {
  attrs : gmap string pyval;
  models_built : list pyval
}.

Definition setattr (name : string) (v : pyval) : M ObjectState unit :=
  fun s => ({| attrs := <[name := v]> (attrs s); models_built := models_built s |}, Ok tt).

Definition getattr (name : string) : M ObjectState pyval :=
  fun s =>
    match attrs s !! name with
    | Some v => (s, Ok v)
    | None => (s, Raise AttributeError)
    end.

(** A call of a method that only model objects have ([to], [eval]). *)
Definition call_model_method (v : pyval) : M ObjectState unit :=
  match v with
  | VModel _ => ret tt
  | _ => raise AttributeError
  end.

Section Construction.

(** The model hub, and the constructor of the base class. *)
Variable AutoTokenizer_from_pretrained : pyval -> result Tokenizer.
Variable AutoModelForMaskedLM_from_pretrained : pyval -> result LanguageModel.
Variable WordInsertion_init : list (string * pyval) -> M ObjectState unit.

Definition build_model (name : pyval) : M ObjectState LanguageModel :=
  fun s =>
    ({| attrs := attrs s; models_built := models_built s ++ [name] |},
     AutoModelForMaskedLM_from_pretrained name).

(** Lines 33-48: the body of [__init__] after the call of the base
    constructor. *)
Definition init_body
    (masked_language_model : pyval) (max_length max_candidates : Z)
    (min_confidence : Q) : M ObjectState unit :=
  setattr "max_length" (VInt max_length) ;;;
  setattr "max_candidates" (VInt max_candidates) ;;;
  setattr "min_confidence" (VFloat min_confidence) ;;;
  tok <- lift (AutoTokenizer_from_pretrained masked_language_model) ;;
  setattr "_lm_tokenizer" (VTokenizer tok) ;;;
  is_name <- lift (py_isinstance [masked_language_model]) ;;
  (if is_name : bool then
     m <- build_model masked_language_model ;;
     setattr "_language_model" (VModel m)
   else
     setattr "_language_model" masked_language_model) ;;;
  lm <- getattr "_language_model" ;;
  call_model_method lm ;;;   (* .to(utils.device) *)
  lm <- getattr "_language_model" ;;
  call_model_method lm ;;;   (* .eval() *)
  lm <- getattr "_language_model" ;;
  setattr "masked_lm_name" (VStr (py_class_name lm)).

Definition __init__
    (masked_language_model : pyval) (max_length max_candidates : Z)
    (min_confidence : Q) (kwargs : list (string * pyval)) : M ObjectState unit :=
  WordInsertion_init kwargs ;;;
  init_body masked_language_model max_length max_candidates min_confidence.

End Construction.

(** The names the constructor's own assignments write, in source order. *)
Definition init_assigned_attrs : list string :=
  ["max_length"; "max_candidates"; "min_confidence";
   "_lm_tokenizer"; "_language_model"; "masked_lm_name"].

(** The typed view of a fully constructed object. *)
Definition instance_view (o : ObjectState) : option WordInsertionMaskedLM :=
  match attrs o !! "max_length", attrs o !! "max_candidates",
        attrs o !! "min_confidence", attrs o !! "_lm_tokenizer",
        attrs o !! "_language_model", attrs o !! "masked_lm_name" with
  | Some (VInt len), Some (VInt k), Some (VFloat p),
    Some (VTokenizer tok), Some (VModel m), Some (VStr name) =>
      Some {| max_length := len; max_candidates := k; min_confidence := p;
              _lm_tokenizer := tok; _language_model := m;
              masked_lm_name := name |}
  | _, _, _, _, _, _ => None
  end.

(** The call of [self._language_model] on the unpacked inputs, and the
    first component of what it returns: one invocation of the oracle,
    recorded in the world.  The model, like the tokenizer, the utils
    functions and softmax, is a total function here: exceptions raised
    inside a collaborator are not modelled. *)
Definition call_language_model
    (self : WordInsertionMaskedLM) (inputs : Encoding)
    : M World (list (list (list Q))) :=
  fun w =>
    ({| heap := heap w; lm_calls := lm_calls w ++ [inputs] |},
     Ok (forward_logits (_language_model self) inputs)).

(** [_encode_text]: the tokenizer's encoding, every tensor moved to the
    device of the model (which leaves its entries as they are). *)
Definition to_device (t : list (list Z)) : list (list Z) := t.

Definition _encode_text (self : WordInsertionMaskedLM) (txt : string) : Encoding :=
  let encoding := encode_plus (_lm_tokenizer self) txt (max_length self) in
  {| input_ids := to_device (input_ids encoding);
     attention_mask := to_device (attention_mask encoding) |}.

Section Transformation.

(** [utils.is_one_word], [utils.check_if_subword] and [torch.softmax]. *)
Variable is_one_word : string -> bool.
Variable check_if_subword : string -> string -> bool.
Variable softmax : list Q -> list Q.

(** The candidate test of the loop body (lines 97-98, the first guard). *)
Definition word_ok (self : WordInsertionMaskedLM) (token : string) : bool :=
  is_one_word token && negb (check_if_subword (masked_lm_name self) token).

(** The [for _id in ranked_indices] loop, with its [break]. *)
Fixpoint rank_loop (self : WordInsertionMaskedLM) (mask_token_probs : list Q)
    (ranked_indices : list nat) (replacement_words : list string)
    : result (list string) :=
  match ranked_indices with
  | [] => Ok replacement_words
  | _id :: rest =>
      let token := convert_ids_to_tokens (_lm_tokenizer self) (Z.of_nat _id) in
      let appended :=
        if word_ok self token then
          match py_getitem mask_token_probs _id with
          | Ok p =>
              Ok (if Qgtb p (min_confidence self)
                  then replacement_words ++ [token]
                  else replacement_words)
          | Raise e => Raise e
          end
        else Ok replacement_words in
      match appended with
      | Ok replacement_words' =>
          if Z.of_nat (length replacement_words') >=? max_candidates self
          then Ok replacement_words'
          else rank_loop self mask_token_probs rest replacement_words'
      | Raise e => Raise e
      end
  end.

(** Lines 74-78: derive the masked text, encode it, take the id row of
    the single batch entry. *)
Definition mask_and_encode
    (self : WordInsertionMaskedLM) (current_text : loc) (index : Z)
    : M World (Encoding * list Z) :=
  masked_attacked_text <-
    insert_text_before_word_index current_text index
      (mask_token (_lm_tokenizer self)) ;;
  masked_text <- get_text masked_attacked_text ;;
  let inputs := _encode_text self masked_text in
  ids <- lift (py_getitem (input_ids inputs) 0) ;;
  ret (inputs, ids).

(** Lines 89-90: the logits at [preds[0, masked_index]] and their
    softmax. *)
Definition mask_probs_from
    (preds : list (list (list Q))) (masked_index : nat) : result (list Q) :=
  match py_getitem preds 0 with
  | Ok batch0 =>
      match py_getitem batch0 masked_index with
      | Ok mask_token_logits => Ok (softmax mask_token_logits)
      | Raise e => Raise e
      end
  | Raise e => Raise e
  end.

Definition _get_new_words
    (self : WordInsertionMaskedLM) (current_text : loc) (index : Z)
    : M World (list string) :=
  enc <- mask_and_encode self current_text index ;;
  let '(inputs, ids) := enc in
  (* try: masked_index = ids.index(mask_token_id)
     except ValueError: return [] *)
  match py_index ids (mask_token_id (_lm_tokenizer self)) with
  | Raise ValueError => ret []
  | Raise e => raise e
  | Ok masked_index =>
      preds <- call_language_model self inputs ;;
      mask_token_probs <- lift (mask_probs_from preds masked_index) ;;
      let ranked_indices := argsort mask_token_probs in
      lift (rank_loop self mask_token_probs ranked_indices [])
  end.

(** The token the loop reads for a ranked position. *)
Definition token_of (self : WordInsertionMaskedLM) (_id : nat) : string :=
  convert_ids_to_tokens (_lm_tokenizer self) (Z.of_nat _id).

(** A vocabulary position whose token passes both guards of the loop
    body: the word test and the confidence test. *)
Definition picked (self : WordInsertionMaskedLM) (probs : list Q) (_id : nat) : Prop :=
  word_ok self (token_of self _id) = true /\
  exists p, probs !! _id = Some p /\ (min_confidence self < p)%Q.

(** The two guards of the loop body as one test on a vocabulary
    position (lines 97-98). *)
Definition passes (self : WordInsertionMaskedLM) (probs : list Q) (_id : nat) : bool :=
  word_ok self (token_of self _id) &&
  match probs !! _id with
  | Some p => Qgtb p (min_confidence self)
  | None => false
  end.

(** [probs] is the softmax distribution the call computes at the masked
    position. *)
Definition probs_at_mask
    (self : WordInsertionMaskedLM) (current_text : loc) (index : Z)
    (w : World) (probs : list Q) : Prop :=
  exists w1 inputs ids masked_index,
    mask_and_encode self current_text index w = (w1, Ok (inputs, ids)) /\
    py_index ids (mask_token_id (_lm_tokenizer self)) = Ok masked_index /\
    mask_probs_from (forward_logits (_language_model self) inputs) masked_index
      = Ok probs.

Definition extra_repr_keys (self : WordInsertionMaskedLM) : list string :=
  ["masked_lm_name "; "max_length"; "max_candidates"; "min_confidence"].

End Transformation.

(** ** A small concrete instance

    A seven-entry vocabulary, a whitespace tokenizer that truncates and
    pads to [max_length], a language model that answers the same logits at
    every position, and a base-two stand-in for [torch.softmax].  The
    instance is used to run the definitions on concrete inputs. *)
Module Toy.

Definition vocab : list string :=
  ["[PAD]"; "[MASK]"; "good"; "bad"; "##ly"; "very"; "new york"].

Fixpoint split_on_space (s : string) (cur : string) : list string :=
  match s with
  | EmptyString => if decide (cur = "") then [] else [cur]
  | String c s' =>
      if Ascii.eqb c (Ascii.ascii_of_nat 32)
      then (if decide (cur = "") then [] else [cur]) ++ split_on_space s' ""
      else split_on_space s' (cur +:+ String c EmptyString)
  end.

Fixpoint vocab_id (v : list string) (tok : string) (n : Z) : Z :=
  match v with
  | [] => 0
  | t :: v' => if decide (t = tok) then n else vocab_id v' tok (n + 1)
  end.

Definition pad_to (n : nat) (l : list Z) : list Z :=
  take n l ++ replicate (n - length l)%nat 0.

Definition toy_encode_plus (s : string) (max_len : Z) : Encoding :=
  let ids := (fun tok => vocab_id vocab tok 0) <$> split_on_space s "" in
  let row := pad_to (Z.to_nat max_len) ids in
  {| input_ids := [row];
     attention_mask := [(fun i => if Z.eqb i 0 then 0 else 1) <$> row] |}.

Definition tokenizer : Tokenizer :=
  {| mask_token := "[MASK]";
     mask_token_id := 1;
     encode_plus := toy_encode_plus;
     convert_ids_to_tokens := fun i => nth (Z.to_nat i) vocab "[UNK]" |}.

Definition logits : list Q :=
  [inject_Z 0; inject_Z 0; inject_Z 3; inject_Z 1; inject_Z 5; inject_Z 2; inject_Z 4].

Definition model : LanguageModel :=
  {| forward_logits := fun enc => map (fun row : list Z => map (fun _ => logits) row) (input_ids enc);
     class_name := "BertForMaskedLM" |}.

Definition softmax (l : list Q) : list Q :=
  let ws := (fun x => Qpower 2 (Qfloor x)) <$> l in
  let total := foldr Qplus 0%Q ws in
  (fun x => Qred (x / total)) <$> ws.

Definition is_one_word (tok : string) : bool :=
  bool_decide (length (split_on_space tok "") = 1%nat).

Definition check_if_subword (model_name tok : string) : bool :=
  String.prefix "##" tok.

Definition transformation (k : Z) (p : Q) (len : Z) : WordInsertionMaskedLM :=
  {| max_length := len;
     max_candidates := k;
     min_confidence := p;
     _lm_tokenizer := tokenizer;
     _language_model := model;
     masked_lm_name := class_name model |}.

(** A model that answers logits at the positions holding the mask id and
    empty rows everywhere else. *)
Definition mask_only_model : LanguageModel :=
  {| forward_logits := fun enc =>
       map (fun row : list Z =>
              map (fun i : Z => if Z.eqb i 1 then logits else []) row)
           (input_ids enc);
     class_name := "BertForMaskedLM" |}.

(** A model whose answer holds no logits at all. *)
Definition silent_model : LanguageModel :=
  {| forward_logits := fun _ => []; class_name := "BertForMaskedLM" |}.

(** The hub knows one name; a fresh object with no attributes yet. *)
Definition tokenizer_hub (name : pyval) : result Tokenizer :=
  match name with
  | VStr "bert-base-uncased" => Ok tokenizer
  | _ => Raise OSError
  end.

Definition model_hub (name : pyval) : result LanguageModel :=
  match name with
  | VStr "bert-base-uncased" => Ok model
  | _ => Raise OSError
  end.

Definition base_init (kwargs : list (string * pyval)) : M ObjectState unit :=
  match kwargs with
  | [] => ret tt
  | _ => raise TypeError
  end.

Definition blank : ObjectState := {| attrs := ∅; models_built := [] |}.

Definition construct (m : pyval) : ObjectState * result unit :=
  __init__ tokenizer_hub model_hub base_init m 512 50 (5 # 10000) [] blank.

Definition the_text : AttackedText :=
  {| words := ["very"; "good"];
     history := [Original; Original];
     parent := None |}.

Definition world : World :=
  {| heap := {[ 1%positive := the_text ]}; lm_calls := [] |}.

Definition run (k : Z) (p : Q) (len : Z) (index : Z) : World * result (list string) :=
  _get_new_words is_one_word check_if_subword softmax
    (transformation k p len) 1%positive index world.

End Toy.


(** * Properties *)

(** ** The sequence primitives *)

Lemma py_getitem_Ok {A} (l : list A) (i : nat) (a : A) :
  py_getitem l i = Ok a <-> l !! i = Some a.
Proof.
  unfold py_getitem. destruct (l !! i); split; intros H; congruence.
Qed.

Lemma py_getitem_lt {A} (l : list A) (i : nat) :
  (i < length l)%nat -> exists a, py_getitem l i = Ok a.
Proof.
  intros Hi. destruct (lookup_lt_is_Some_2 l i Hi) as [a Ha].
  exists a. by apply py_getitem_Ok.
Qed.

Lemma py_index_absent (l : list Z) (x : Z) :
  x ∉ l -> py_index l x = Raise ValueError.
Proof.
  induction l as [|y l IH]; intros Hx; simpl; [done|].
  apply not_elem_of_cons in Hx as [Hne Hx].
  destruct (Z.eqb_spec y x) as [->|_]; [done|].
  by rewrite IH.
Qed.

Lemma py_index_raises_only_ValueError (l : list Z) (x : Z) (e : exn) :
  py_index l x = Raise e -> e = ValueError /\ x ∉ l.
Proof.
  induction l as [|y l IH]; simpl.
  - intros [= <-]. split; [done|]. apply not_elem_of_nil.
  - destruct (Z.eqb_spec y x) as [->|Hne]; [done|].
    destruct (py_index l x) as [i|e'] eqn:E; [done|].
    intros [= <-]. destruct (IH eq_refl) as [-> Hx]. split; [done|].
    apply not_elem_of_cons. split; [congruence|done].
Qed.

Lemma py_index_found (l : list Z) (x : Z) (i : nat) :
  py_index l x = Ok i ->
  l !! i = Some x /\ (i < length l)%nat /\ x ∉ take i l.
Proof.
  revert i. induction l as [|y l IH]; intros i; simpl; [done|].
  destruct (Z.eqb_spec y x) as [->|Hne].
  - intros [= <-]. simpl. split; [done|]. split; [lia|]. apply not_elem_of_nil.
  - destruct (py_index l x) as [j|e] eqn:E; [|done].
    intros [= <-]. destruct (IH j eq_refl) as (Hl & Hlt & Hfirst).
    simpl. split; [done|]. split; [lia|].
    apply not_elem_of_cons. split; [congruence|done].
Qed.

Lemma py_index_present (l : list Z) (x : Z) :
  x ∈ l -> exists i, py_index l x = Ok i.
Proof.
  intros Hx. destruct (py_index l x) as [i|e] eqn:E; [by exists i|].
  by destruct (py_index_raises_only_ValueError _ _ _ E) as [_ Hn].
Qed.

(** ** [argsort] sorts the positions in ascending order *)

Lemma Qgtb_lt (a b : Q) : Qgtb a b = true <-> (b < a)%Q.
Proof.
  unfold Qgtb. rewrite negb_true_iff. split.
  - intros H. apply Qnot_le_lt. intros Hle.
    apply Qle_bool_iff in Hle. congruence.
  - intros H. destruct (Qle_bool a b) eqn:E; [|done].
    apply Qle_bool_iff in E. exfalso. by apply (Qlt_not_le _ _ H).
Qed.

Lemma key_le_Qle (v : list Q) (i j : nat) :
  key_le v i j <-> (nth i v 0 <= nth j v 0)%Q.
Proof.
  unfold key_le. rewrite Is_true_true. apply Qle_bool_iff.
Qed.

#[global] Instance key_le_total (v : list Q) : Total (key_le v).
Proof.
  intros i j. rewrite !key_le_Qle.
  destruct (Qlt_le_dec (nth i v 0%Q) (nth j v 0%Q)) as [H|H]; [left|right]; [|done].
  by apply Qlt_le_weak.
Qed.

#[global] Instance key_le_trans (v : list Q) : Transitive (key_le v).
Proof.
  intros i j k. rewrite !key_le_Qle. apply Qle_trans.
Qed.

Lemma argsort_Permutation (v : list Q) : argsort v ≡ₚ seq 0 (length v).
Proof. apply merge_sort_Permutation. Qed.

Lemma argsort_in_range (v : list Q) (i : nat) :
  i ∈ argsort v -> (i < length v)%nat.
Proof.
  rewrite argsort_Permutation, elem_of_seq. lia.
Qed.

Lemma argsort_ascending (v : list Q) : StronglySorted (key_le v) (argsort v).
Proof. apply StronglySorted_merge_sort; apply _. Qed.

Lemma StronglySorted_sublist {A} (R : relation A) (l1 l2 : list A) :
  sublist l1 l2 -> StronglySorted R l2 -> StronglySorted R l1.
Proof.
  induction 1 as [|x l1 l2 Hsub IH|x l1 l2 Hsub IH]; intros Hs.
  - constructor.
  - apply StronglySorted_inv in Hs as [Hs Hall]. constructor; [by apply IH|].
    rewrite Forall_forall in Hall |- *. intros y Hy.
    apply Hall. by eapply elem_of_sublist.
  - apply StronglySorted_inv in Hs as [Hs _]. by apply IH.
Qed.

(** ** The ranking loop *)

Section RankLoop.

Variable is_one_word : string -> bool.
Variable check_if_subword : string -> string -> bool.

Local Abbreviation loop := (rank_loop is_one_word check_if_subword).
Local Abbreviation chosen := (picked is_one_word check_if_subword).

Ltac loop_cases self probs i :=
  simpl;
  destruct (word_ok is_one_word check_if_subword self
              (convert_ids_to_tokens (_lm_tokenizer self) (Z.of_nat i))) eqn:Hword;
  [ destruct (py_getitem probs i) as [p|e] eqn:Hget;
    [ destruct (Qgtb p (min_confidence self)) eqn:Hconf | ]
  | ].

(** Each round appends at most one word, and the loop stops as soon as
    the bound is reached: the result never exceeds the larger of the
    bound and one more than what it started with. *)
Lemma rank_loop_length self probs ranked acc r :
  loop self probs ranked acc = Ok r ->
  Z.of_nat (length r) <= Z.max (max_candidates self) (Z.of_nat (length acc) + 1).
Proof.
  revert acc. induction ranked as [|i rest IH]; intros acc.
  - simpl. intros [= <-]. lia.
  - loop_cases self probs i; try done.
    all: match goal with
         | |- context [Z.of_nat (length ?a) >=? ?k] =>
             destruct (Z.geb_spec (Z.of_nat (length a)) k) as [Hge|Hlt]
         end.
    all: try (intros [= <-]; rewrite ?length_app; simpl; lia).
    all: intros Hr; apply IH in Hr; revert Hr Hlt;
         rewrite ?length_app; simpl; lia.
Qed.

(** The words the loop adds are the tokens of a subsequence of the
    ranked positions, every one of which passed both guards. *)
Lemma rank_loop_picks self probs ranked acc r :
  loop self probs ranked acc = Ok r ->
  exists ids,
    r = acc ++ map (token_of self) ids /\
    sublist ids ranked /\
    Forall (chosen self probs) ids.
Proof.
  revert acc. induction ranked as [|i rest IH]; intros acc.
  - simpl. intros [= <-]. exists []. rewrite app_nil_r. repeat split; constructor.
  - loop_cases self probs i; try done.
    all: match goal with
         | |- context [Z.of_nat (length ?a) >=? ?k] =>
             destruct (Z.of_nat (length a) >=? k)
         end.
    + intros [= <-]. exists [i]. split; [done|]. split.
      * apply sublist_skip, sublist_nil_l.
      * constructor; [|constructor]. split; [done|].
        exists p. split; [by apply py_getitem_Ok|by apply Qgtb_lt].
    + intros Hr. apply IH in Hr as (ids & -> & Hsub & Hall).
      exists (i :: ids). split; [by rewrite <- app_assoc|]. split.
      * by apply sublist_skip.
      * constructor; [|done]. split; [done|].
        exists p. split; [by apply py_getitem_Ok|by apply Qgtb_lt].
    + intros [= <-]. exists []. rewrite app_nil_r. split; [done|]. split.
      * apply sublist_nil_l.
      * constructor.
    + intros Hr. apply IH in Hr as (ids & -> & Hsub & Hall).
      exists ids. split; [done|]. split; [by apply sublist_cons|done].
    + intros [= <-]. exists []. rewrite app_nil_r. split; [done|]. split.
      * apply sublist_nil_l.
      * constructor.
    + intros Hr. apply IH in Hr as (ids & -> & Hsub & Hall).
      exists ids. split; [done|]. split; [by apply sublist_cons|done].
Qed.

(** Over positions of the distribution the loop never raises. *)
Lemma rank_loop_total self probs ranked acc :
  Forall (fun i => (i < length probs)%nat) ranked ->
  exists r, loop self probs ranked acc = Ok r.
Proof.
  revert acc. induction ranked as [|i rest IH]; intros acc Hall.
  - by exists acc.
  - apply Forall_cons in Hall as [Hi Hall].
    destruct (py_getitem_lt probs i Hi) as [q Hq].
    loop_cases self probs i; try congruence.
    all: match goal with
         | |- context [Z.of_nat (length ?a) >=? ?k] =>
             destruct (Z.of_nat (length a) >=? k)
         end; eauto.
Qed.

End RankLoop.

(** ** Deriving and encoding the masked text *)

Lemma insert_text_before_word_index_frame self index new_text w :
  let w' := fst (insert_text_before_word_index self index new_text w) in
  heap w ⊆ heap w' /\ lm_calls w' = lm_calls w.
Proof.
  unfold insert_text_before_word_index.
  destruct (heap w !! self) as [t|]; [|done].
  destruct ((0 <=? index) && (index <? Z.of_nat (length (words t)))); [|done].
  simpl. split; [|done].
  apply insert_subseteq, not_elem_of_dom, is_fresh.
Qed.

Lemma insert_text_before_word_index_new self index new_text w w1 r :
  insert_text_before_word_index self index new_text w = (w1, Ok r) ->
  heap w !! r = None /\
  exists t, heap w !! self = Some t /\
    (0 <= index < Z.of_nat (length (words t))) /\
    heap w1 !! r =
      Some {| words := take (Z.to_nat index) (words t) ++
                       new_text :: drop (Z.to_nat index) (words t);
              history := take (Z.to_nat index) (history t) ++
                         Modified :: drop (Z.to_nat index) (history t);
              parent := Some self |}.
Proof.
  unfold insert_text_before_word_index.
  destruct (heap w !! self) as [t|] eqn:Hself; [|done].
  destruct ((0 <=? index) && (index <? Z.of_nat (length (words t)))) eqn:Hrange; [|done].
  intros [= <- <-]. split.
  - apply not_elem_of_dom, is_fresh.
  - exists t. split; [done|]. split; [lia|]. simpl. by rewrite lookup_insert_eq.
Qed.

Lemma insert_text_before_word_index_heap self index new_text w :
  map_Forall (old_or_derived w self new_text)
    (heap (fst (insert_text_before_word_index self index new_text w))).
Proof.
  destruct (insert_text_before_word_index self index new_text w) as [w1 [r|e]] eqn:Hins.
  - destruct (insert_text_before_word_index_new _ _ _ _ _ _ Hins)
      as (Hfresh & t & Hself & Hrange & Hnew).
    revert Hins. unfold insert_text_before_word_index. rewrite Hself.
    destruct ((0 <=? index) && (index <? Z.of_nat (length (words t)))); [|done].
    intros [= <- Hr]. simpl. intros r' t' Hlook.
    destruct (decide (fresh (dom (heap w)) = r')) as [<-|Hne].
    + rewrite lookup_insert_eq in Hlook. injection Hlook as <-.
      right. split; [by apply not_elem_of_dom, is_fresh|]. split; [done|].
      simpl. apply elem_of_app. right. apply elem_of_cons. by left.
    + rewrite lookup_insert_ne in Hlook by done. by left.
  - revert Hins. unfold insert_text_before_word_index.
    destruct (heap w !! self) as [t|]; [|intros [= <- _]; intros r t Hl; by left].
    destruct ((0 <=? index) && (index <? Z.of_nat (length (words t)))); [done|].
    intros [= <- _]. intros r' t' Hl. by left.
Qed.

Lemma get_text_state r w : fst (get_text r w) = w.
Proof. unfold get_text. by destruct (heap w !! r). Qed.

Lemma mask_and_encode_frame self current_text index w :
  let w' := fst (mask_and_encode self current_text index w) in
  heap w ⊆ heap w' /\ lm_calls w' = lm_calls w.
Proof.
  unfold mask_and_encode, bind, lift, ret.
  pose proof (insert_text_before_word_index_frame current_text index
                (mask_token (_lm_tokenizer self)) w) as Hframe.
  destruct (insert_text_before_word_index current_text index
              (mask_token (_lm_tokenizer self)) w) as [w1 [r|e]]; [|done].
  pose proof (get_text_state r w1) as Hget.
  destruct (get_text r w1) as [w2 [txt|e]]; simpl in *; subst w2; [|done].
  match goal with
  | |- context [py_getitem ?l ?i] => by destruct (py_getitem l i)
  end.
Qed.

Lemma mask_and_encode_heap self current_text index w :
  heap (fst (mask_and_encode self current_text index w)) =
  heap (fst (insert_text_before_word_index current_text index
               (mask_token (_lm_tokenizer self)) w)).
Proof.
  unfold mask_and_encode, bind, lift, ret.
  destruct (insert_text_before_word_index current_text index
              (mask_token (_lm_tokenizer self)) w) as [w1 [r|e]]; [|done].
  pose proof (get_text_state r w1) as Hget.
  destruct (get_text r w1) as [w2 [txt|e]]; simpl in *; subst w2; [|done].
  match goal with
  | |- context [py_getitem ?l ?i] => by destruct (py_getitem l i)
  end.
Qed.

(** ** Unfolding [_get_new_words] *)

Section GetNewWords.

Variable is_one_word : string -> bool.
Variable check_if_subword : string -> string -> bool.
Variable softmax : list Q -> list Q.

Local Abbreviation loop := (rank_loop is_one_word check_if_subword).
Local Abbreviation gnw := (_get_new_words is_one_word check_if_subword softmax).
Local Abbreviation probs_from := (mask_probs_from softmax).

Lemma get_new_words_encode_raises self current_text index w w1 e :
  mask_and_encode self current_text index w = (w1, Raise e) ->
  gnw self current_text index w = (w1, Raise e).
Proof.
  intros H. unfold _get_new_words, bind. by rewrite H.
Qed.

Lemma get_new_words_mask_absent self current_text index w w1 inputs ids :
  mask_and_encode self current_text index w = (w1, Ok (inputs, ids)) ->
  mask_token_id (_lm_tokenizer self) ∉ ids ->
  gnw self current_text index w = (w1, Ok []).
Proof.
  intros H Habs. unfold _get_new_words, bind. rewrite H.
  by rewrite (py_index_absent _ _ Habs).
Qed.

Lemma get_new_words_mask_found self current_text index w w1 inputs ids masked_index :
  mask_and_encode self current_text index w = (w1, Ok (inputs, ids)) ->
  py_index ids (mask_token_id (_lm_tokenizer self)) = Ok masked_index ->
  gnw self current_text index w =
    ({| heap := heap w1; lm_calls := lm_calls w1 ++ [inputs] |},
     match probs_from (forward_logits (_language_model self) inputs) masked_index with
     | Ok probs => loop self probs (argsort probs) []
     | Raise e => Raise e
     end).
Proof.
  intros H Hidx. unfold _get_new_words, bind, call_language_model, lift.
  rewrite H, Hidx.
  by destruct (probs_from (forward_logits (_language_model self) inputs) masked_index).
Qed.

(** The three ways a call can go. *)
Lemma get_new_words_cases self current_text index w :
  (exists w1 e,
      mask_and_encode self current_text index w = (w1, Raise e) /\
      gnw self current_text index w = (w1, Raise e)) \/
  (exists w1 inputs ids,
      mask_and_encode self current_text index w = (w1, Ok (inputs, ids)) /\
      (mask_token_id (_lm_tokenizer self) ∉ ids) /\
      gnw self current_text index w = (w1, Ok [])) \/
  (exists w1 inputs ids masked_index,
      mask_and_encode self current_text index w = (w1, Ok (inputs, ids)) /\
      py_index ids (mask_token_id (_lm_tokenizer self)) = Ok masked_index /\
      gnw self current_text index w =
        ({| heap := heap w1; lm_calls := lm_calls w1 ++ [inputs] |},
         match probs_from (forward_logits (_language_model self) inputs) masked_index with
         | Ok probs => loop self probs (argsort probs) []
         | Raise e => Raise e
         end)).
Proof.
  destruct (mask_and_encode self current_text index w) as [w1 [[inputs ids]|e]] eqn:Henc.
  - destruct (py_index ids (mask_token_id (_lm_tokenizer self))) as [mi|e] eqn:Hidx.
    + right; right. exists w1, inputs, ids, mi.
      split; [done|]. split; [done|]. by apply get_new_words_mask_found with ids.
    + right; left. exists w1, inputs, ids.
      apply py_index_raises_only_ValueError in Hidx as [_ Habs].
      split; [done|]. split; [done|]. by apply get_new_words_mask_absent with inputs ids.
  - left. exists w1, e. split; [done|]. by apply get_new_words_encode_raises.
Qed.

(** What a returned list is made of. *)
Lemma get_new_words_result self current_text index w r :
  snd (gnw self current_text index w) = Ok r ->
  r = [] \/
  exists probs ids,
    probs_at_mask softmax self current_text index w probs /\
    loop self probs (argsort probs) [] = Ok r /\
    r = map (token_of self) ids /\
    sublist ids (argsort probs) /\
    Forall (picked is_one_word check_if_subword self probs) ids.
Proof.
  destruct (get_new_words_cases self current_text index w)
    as [(w1 & e & _ & ->)|[(w1 & inputs & ids & _ & _ & ->)|
        (w1 & inputs & ids & mi & Henc & Hidx & ->)]]; simpl.
  - done.
  - intros [= <-]. by left.
  - destruct (probs_from (forward_logits (_language_model self) inputs) mi)
      as [probs|e] eqn:Hprobs; [|done].
    intros Hloop. right.
    destruct (rank_loop_picks _ _ _ _ _ _ _ Hloop) as (picks & Hr & Hsub & Hall).
    exists probs, picks. split; [by exists w1, inputs, ids, mi|].
    by repeat split.
Qed.

(** The returned words follow the order of [argsort]: their
    probabilities never decrease along the list. *)
Lemma get_new_words_ascending self current_text index w r :
  snd (gnw self current_text index w) = Ok r ->
  r = [] \/
  exists probs ids,
    probs_at_mask softmax self current_text index w probs /\
    r = map (token_of self) ids /\
    StronglySorted (key_le probs) ids.
Proof.
  intros Hr. apply get_new_words_result in Hr
    as [->|(probs & ids & Hprobs & _ & -> & Hsub & _)]; [by left|right].
  exists probs, ids. split; [done|]. split; [done|].
  eapply StronglySorted_sublist; [done|]. apply argsort_ascending.
Qed.

(** The call touches the heap through [mask_and_encode] only. *)
Lemma get_new_words_heap self current_text index w :
  heap (fst (gnw self current_text index w)) =
  heap (fst (mask_and_encode self current_text index w)).
Proof.
  destruct (get_new_words_cases self current_text index w)
    as [(w1 & e & Henc & Hres)|[(w1 & inputs & ids & Henc & Habs & Hres)|
        (w1 & inputs & ids & mi & Henc & Hidx & Hres)]];
    by rewrite Henc, Hres.
Qed.

(** The length of the returned list: at most the larger of
    [max_candidates] and one. *)
Lemma get_new_words_length self current_text index w r :
  snd (gnw self current_text index w) = Ok r ->
  Z.of_nat (length r) <= Z.max (max_candidates self) 1.
Proof.
  intros Hr. apply get_new_words_result in Hr
    as [->|(probs & ids & _ & Hloop & _)]; [simpl; lia|].
  by apply rank_loop_length in Hloop.
Qed.

Lemma get_new_words_length_positive_bound self current_text index w r :
  1 <= max_candidates self ->
  snd (gnw self current_text index w) = Ok r ->
  Z.of_nat (length r) <= max_candidates self.
Proof.
  intros Hk Hr. apply get_new_words_length in Hr. lia.
Qed.

(** When the model answers one row of logits per input position, the
    lookup at the masked position succeeds and the call returns. *)
Lemma get_new_words_in_bounds self current_text index w w1 inputs ids masked_index :
  Forall2 (fun (row : list Z) (out : list (list Q)) => length out = length row)
    (input_ids inputs) (forward_logits (_language_model self) inputs) ->
  mask_and_encode self current_text index w = (w1, Ok (inputs, ids)) ->
  py_index ids (mask_token_id (_lm_tokenizer self)) = Ok masked_index ->
  (masked_index < length ids)%nat /\
  exists batch0 mask_token_logits r,
    py_getitem (forward_logits (_language_model self) inputs) 0 = Ok batch0 /\
    length batch0 = length ids /\
    py_getitem batch0 masked_index = Ok mask_token_logits /\
    snd (gnw self current_text index w) = Ok r.
Proof.
  intros Hshape Henc Hidx.
  destruct (py_index_found _ _ _ Hidx) as (_ & Hlt & _).
  split; [done|].
  assert (input_ids inputs !! 0%nat = Some ids) as Hrow.
  { revert Henc. unfold mask_and_encode, bind, lift, ret.
    destruct (insert_text_before_word_index _ _ _ w) as [w2 [r|e]]; [|done].
    destruct (get_text r w2) as [w3 [txt|e]]; [|done].
    destruct (py_getitem (input_ids (_encode_text self txt)) 0) as [row|e] eqn:Hget;
      [|done].
    intros [= <- <- <-]. by apply py_getitem_Ok. }
  destruct (Forall2_lookup_l _ _ _ _ _ Hshape Hrow) as (batch0 & Hb & Hlen).
  assert (masked_index < length batch0)%nat as Hlt' by lia.
  destruct (py_getitem_lt batch0 masked_index Hlt') as [logits Hlogits].
  assert (probs_from (forward_logits (_language_model self) inputs) masked_index
          = Ok (softmax logits)) as Hprobs.
  { unfold mask_probs_from. apply py_getitem_Ok in Hb. by rewrite Hb, Hlogits. }
  destruct (rank_loop_total is_one_word check_if_subword self (softmax logits)
              (argsort (softmax logits)) []) as [r Hr].
  { apply Forall_forall. intros i. apply argsort_in_range. }
  exists batch0, logits, r. split; [by apply py_getitem_Ok|].
  split; [done|]. split; [done|].
  rewrite (get_new_words_mask_found _ _ _ _ _ _ _ _ Henc Hidx). simpl.
  by rewrite Hprobs.
Qed.

(** With a tokenizer that pads and truncates to exactly [max_length]
    positions, a masked index that was found lies below [max_length]. *)
Lemma masked_index_below_max_length self (ids : list Z) masked_index :
  length ids = Z.to_nat (max_length self) ->
  py_index ids (mask_token_id (_lm_tokenizer self)) = Ok masked_index ->
  Z.of_nat masked_index < max_length self.
Proof.
  intros Hlen Hidx. destruct (py_index_found _ _ _ Hidx) as (_ & Hlt & _). lia.
Qed.

End GetNewWords.

(** ** The constructor *)

Section ConstructionFacts.

Variable AutoTokenizer_from_pretrained : pyval -> result Tokenizer.
Variable AutoModelForMaskedLM_from_pretrained : pyval -> result LanguageModel.
Variable WordInsertion_init : list (string * pyval) -> M ObjectState unit.

Local Abbreviation body :=
  (init_body AutoTokenizer_from_pretrained AutoModelForMaskedLM_from_pretrained).
Local Abbreviation init :=
  (__init__ AutoTokenizer_from_pretrained AutoModelForMaskedLM_from_pretrained
     WordInsertion_init).

(** [isinstance] is called with a single argument. *)
Lemma isinstance_one_argument (v : pyval) : py_isinstance [v] = Raise TypeError.
Proof. reflexivity. Qed.

(** Where the body stops: at the tokenizer when the hub refuses the
    argument, at the [isinstance] call otherwise; the state then holds
    the attributes assigned so far and no model has been built. *)
Lemma init_body_run m len k p s :
  body m len k p s =
    let a3 := <["min_confidence" := VFloat p]>
                (<["max_candidates" := VInt k]>
                   (<["max_length" := VInt len]> (attrs s))) in
    match AutoTokenizer_from_pretrained m with
    | Ok tok =>
        ({| attrs := <["_lm_tokenizer" := VTokenizer tok]> a3;
            models_built := models_built s |}, Raise TypeError)
    | Raise e =>
        ({| attrs := a3; models_built := models_built s |}, Raise e)
    end.
Proof.
  unfold init_body, bind, setattr, lift. simpl.
  by destruct (AutoTokenizer_from_pretrained m).
Qed.

Lemma init_body_raises m len k p s :
  exists e, snd (body m len k p s) = Raise e.
Proof.
  rewrite init_body_run. simpl.
  destruct (AutoTokenizer_from_pretrained m) as [tok|e]; simpl; eauto.
Qed.

Lemma init_raises m len k p kwargs s :
  exists e, snd (init m len k p kwargs s) = Raise e.
Proof.
  unfold __init__, bind.
  destruct (WordInsertion_init kwargs s) as [s1 [[]|e]]; simpl; [|eauto].
  apply init_body_raises.
Qed.

(** Every attribute the body writes is one of the six listed names. *)
Lemma init_body_assigns m len k p s name :
  name ∉ init_assigned_attrs ->
  attrs (fst (body m len k p s)) !! name = attrs s !! name.
Proof.
  intros Hname. rewrite init_body_run. simpl.
  assert (forall n : string, n ∈ init_assigned_attrs -> n <> name) as Hne.
  { intros n Hn ->. by apply Hname. }
  destruct (AutoTokenizer_from_pretrained m) as [tok|e]; simpl.
  all: rewrite ?lookup_insert_ne; [done|..].
  all: apply Hne; unfold init_assigned_attrs; set_solver.
Qed.

End ConstructionFacts.

(** ** The steps behind the encoded inputs and the distribution *)

Lemma mask_and_encode_steps self current_text index w w1 inputs ids :
  mask_and_encode self current_text index w = (w1, Ok (inputs, ids)) ->
  exists r t,
    insert_text_before_word_index current_text index
      (mask_token (_lm_tokenizer self)) w = (w1, Ok r) /\
    heap w1 !! r = Some t /\
    inputs = _encode_text self (text t) /\
    input_ids inputs !! 0%nat = Some ids.
Proof.
  unfold mask_and_encode, bind, lift, ret.
  destruct (insert_text_before_word_index current_text index
              (mask_token (_lm_tokenizer self)) w) as [w2 [r|e]]; [|done].
  unfold get_text. destruct (heap w2 !! r) as [t|] eqn:Ht; [|done].
  destruct (py_getitem (input_ids (_encode_text self (text t))) 0)
    as [row|e] eqn:Hrow; [|done].
  intros [= <- <- <-]. exists r, t.
  split; [done|]. split; [done|]. split; [done|]. by apply py_getitem_Ok.
Qed.

Lemma mask_probs_from_Ok (softmax : list Q -> list Q) preds masked_index probs :
  mask_probs_from softmax preds masked_index = Ok probs ->
  exists batch0 mask_token_logits,
    preds !! 0%nat = Some batch0 /\
    batch0 !! masked_index = Some mask_token_logits /\
    probs = softmax mask_token_logits.
Proof.
  unfold mask_probs_from, py_getitem.
  destruct (preds !! 0%nat) as [batch0|] eqn:Hb; [|done].
  destruct (batch0 !! masked_index) as [logits|] eqn:Hl; [|done].
  intros [= <-]. by exists batch0, logits.
Qed.

(** * Properties of [_get_new_words] *)

Section Specification.

Variable is_one_word : string -> bool.
Variable check_if_subword : string -> string -> bool.
Variable softmax : list Q -> list Q.

(** C1: when the mask token id does not occur in the encoded ids of the
    masked text (the mask was truncated away), [_get_new_words] returns
    the empty list and raises nothing: the absence is found by the index
    search over the ids, whose [ValueError] is caught. *)
Theorem truncated_mask_gives_empty_list
    self current_text index w w1 inputs ids :
  mask_and_encode self current_text index w = (w1, Ok (inputs, ids)) ->
  mask_token_id (_lm_tokenizer self) ∉ ids ->
  _get_new_words is_one_word check_if_subword softmax
    self current_text index w = (w1, Ok []) /\
  py_index ids (mask_token_id (_lm_tokenizer self)) = Raise ValueError.
Proof.
  intros Henc Habs. split.
  - by apply get_new_words_mask_absent with inputs ids.
  - by apply py_index_absent.
Qed.

(** C5: every word of a returned list has a softmax probability at the
    masked position that is strictly greater than [min_confidence].
    Spelled out on the steps of the call: the masked text [t] was derived
    and encoded to [inputs], [masked_index] is the first position of the
    mask token id in the encoded ids, [mask_token_logits] is the row
    [preds[0, masked_index]] of the model's answer on [inputs], and the
    word is the token of a vocabulary position [_id] whose entry in
    [softmax mask_token_logits] exceeds [min_confidence]. *)
Theorem returned_words_exceed_min_confidence
    self current_text index w r word :
  snd (_get_new_words is_one_word check_if_subword softmax
           self current_text index w) = Ok r ->
  word ∈ r ->
  exists w1 masked_attacked_text t inputs ids masked_index
         batch0 mask_token_logits _id p,
    insert_text_before_word_index current_text index
      (mask_token (_lm_tokenizer self)) w = (w1, Ok masked_attacked_text) /\
    heap w1 !! masked_attacked_text = Some t /\
    inputs = _encode_text self (text t) /\
    input_ids inputs !! 0%nat = Some ids /\
    ids !! masked_index = Some (mask_token_id (_lm_tokenizer self)) /\
    (mask_token_id (_lm_tokenizer self) ∉ take masked_index ids) /\
    forward_logits (_language_model self) inputs !! 0%nat = Some batch0 /\
    batch0 !! masked_index = Some mask_token_logits /\
    convert_ids_to_tokens (_lm_tokenizer self) (Z.of_nat _id) = word /\
    softmax mask_token_logits !! _id = Some p /\
    (min_confidence self < p)%Q.
Proof.
  intros Hr Hword. apply get_new_words_result in Hr
    as [->|(probs & picks & Hprobs & _ & -> & _ & Hall)].
  - by apply elem_of_nil in Hword.
  - apply list_elem_of_fmap in Hword as (i & -> & Hi).
    rewrite Forall_forall in Hall.
    destruct (Hall i Hi) as (_ & p & Hp & Hlt).
    destruct Hprobs as (w1 & inputs & ids & mi & Henc & Hidx & Hfrom).
    destruct (mask_and_encode_steps _ _ _ _ _ _ _ Henc)
      as (r & t & Hins & Ht & Hinputs & Hrow).
    destruct (py_index_found _ _ _ Hidx) as (Hmask & _ & Hfirst).
    destruct (mask_probs_from_Ok _ _ _ _ Hfrom) as (batch0 & logits & Hb & Hl & ->).
    exists w1, r, t, inputs, ids, mi, batch0, logits, i, p.
    by repeat split.
Qed.

(** C6: every word of a returned list passes [utils.is_one_word] and is
    not flagged by [utils.check_if_subword] for the model in use. *)
Theorem returned_words_are_whole_single_words
    self current_text index w r word :
  snd (_get_new_words is_one_word check_if_subword softmax
           self current_text index w) = Ok r ->
  word ∈ r ->
  is_one_word word = true /\
  check_if_subword (masked_lm_name self) word = false.
Proof.
  intros Hr Hword. apply get_new_words_result in Hr
    as [->|(probs & ids & _ & _ & -> & _ & Hall)].
  - by apply elem_of_nil in Hword.
  - apply list_elem_of_fmap in Hword as (i & -> & Hi).
    rewrite Forall_forall in Hall.
    destruct (Hall i Hi) as (Hok & _).
    unfold word_ok in Hok. apply andb_true_iff in Hok as [H1 H2].
    by apply negb_true_iff in H2.
Qed.

(** C7: a call invokes the masked-language-model oracle at most once:
    once, on the encoded inputs, when the mask token id is among the
    encoded ids; not at all when it is absent or when the call raised
    before encoding. *)
Theorem oracle_invoked_at_most_once self current_text index w :
  let w' := fst (_get_new_words is_one_word check_if_subword softmax
           self current_text index w) in
  (exists calls, lm_calls w' = lm_calls w ++ calls /\ (length calls <= 1)%nat) /\
  match mask_and_encode self current_text index w with
  | (_, Ok (inputs, ids)) =>
      lm_calls w' = lm_calls w ++
        (if bool_decide (mask_token_id (_lm_tokenizer self) ∈ ids)
         then [inputs] else [])
  | (_, Raise _) => lm_calls w' = lm_calls w
  end.
Proof.
  pose proof (mask_and_encode_frame self current_text index w) as [_ Hlog].
  destruct (get_new_words_cases is_one_word check_if_subword softmax
              self current_text index w)
    as [(w1 & e & Henc & Hres)|[(w1 & inputs & ids & Henc & Habs & Hres)|
        (w1 & inputs & ids & mi & Henc & Hidx & Hres)]];
    rewrite Henc in *; rewrite Hres; simpl in *.
  - split; [|done]. exists []. rewrite app_nil_r. split; [done|simpl; lia].
  - rewrite bool_decide_false by done. rewrite app_nil_r.
    split; [|done]. exists []. rewrite app_nil_r. split; [done|simpl; lia].
  - rewrite bool_decide_true, Hlog.
    + split; [|done]. exists [inputs]. split; [done|simpl; lia].
    + destruct (py_index_found _ _ _ Hidx) as (Hl & _ & _).
      by eapply list_elem_of_lookup_2.
Qed.

(** C8: a call leaves [current_text] as it was, and with it every object
    that existed before: the mask goes into a newly allocated
    AttackedText only. *)
Theorem current_text_not_mutated self current_text index w :
  let w' := fst (_get_new_words is_one_word check_if_subword softmax
           self current_text index w) in
  heap w' !! current_text = heap w !! current_text /\
  words <$> heap w' !! current_text = words <$> heap w !! current_text /\
  heap w ⊆ heap w' /\
  map_Forall
    (old_or_derived w current_text (mask_token (_lm_tokenizer self)))
    (heap w').
Proof.
  pose proof (mask_and_encode_frame self current_text index w) as [Hsub _].
  pose proof (insert_text_before_word_index_heap current_text index
                (mask_token (_lm_tokenizer self)) w) as Hnew.
  rewrite <- mask_and_encode_heap in Hnew.
  rewrite <- (get_new_words_heap is_one_word check_if_subword softmax) in Hsub, Hnew.
  assert (heap (fst (_get_new_words is_one_word check_if_subword softmax
           self current_text index w)) !! current_text
          = heap w !! current_text) as Hsame.
  { destruct (heap w !! current_text) as [t|] eqn:Ht.
    - by eapply lookup_weaken.
    - unfold _get_new_words, mask_and_encode, bind, insert_text_before_word_index.
      by rewrite Ht. }
  simpl. split; [done|]. split; [by rewrite Hsame|done].
Qed.

(** C10: when the model answers one row of logits per encoded position,
    a masked index found by the search over the encoded ids is a valid
    position of those logits: the lookup at the masked position
    succeeds and the call returns a list. *)
Theorem masked_index_within_logits
    self current_text index w w1 inputs ids masked_index :
  Forall2 (fun (row : list Z) (out : list (list Q)) => length out = length row)
    (input_ids inputs) (forward_logits (_language_model self) inputs) ->
  mask_and_encode self current_text index w = (w1, Ok (inputs, ids)) ->
  py_index ids (mask_token_id (_lm_tokenizer self)) = Ok masked_index ->
  (masked_index < length ids)%nat /\
  exists batch0 mask_token_logits r,
    py_getitem (forward_logits (_language_model self) inputs) 0 = Ok batch0 /\
    length batch0 = length ids /\
    py_getitem batch0 masked_index = Ok mask_token_logits /\
    snd (_get_new_words is_one_word check_if_subword softmax
           self current_text index w) = Ok r.
Proof.
  intros Hshape Henc Hidx.
  by eapply get_new_words_in_bounds.
Qed.

End Specification.

(** * Concrete runs, the constructor and [extra_repr_keys] *)

(** C1 at work: with [max_length = 1] the encoding of
    ["very [MASK] good"] keeps the single id of ["very"], the mask is
    truncated away, and the call returns the empty list. *)
Lemma truncated_mask_gives_empty_list_run :
  let self := Toy.transformation 50 (1 # 50) 1 in
  let enc := mask_and_encode self 1%positive 1 Toy.world in
  _get_new_words Toy.is_one_word Toy.check_if_subword Toy.softmax
    self 1%positive 1 Toy.world = (fst enc, Ok []) /\
  py_index [5] (mask_token_id (_lm_tokenizer self)) = Raise ValueError.
Proof.
  intros self enc.
  apply (truncated_mask_gives_empty_list
           Toy.is_one_word Toy.check_if_subword Toy.softmax
           self 1%positive 1 Toy.world (fst enc)
           (Toy.toy_encode_plus "very [MASK] good" 1) [5]).
  - vm_compute. reflexivity.
  - apply (bool_decide_unpack _). vm_compute. exact I.
Defined.

(** C2, the run that shows the order: with threshold 1/50 the call
    returns ["bad"], ["very"], ["good"] in this order, while their
    probabilities at the masked position are 1/32, 1/16 and 1/8: the least
    confident word comes first, the most confident last. *)
Theorem least_confident_word_comes_first :
  let self := Toy.transformation 50 (1 # 50) 8 in
  snd (Toy.run 50 (1 # 50) 8 1) = Ok ["bad"; "very"; "good"] /\
  exists probs,
    probs_at_mask Toy.softmax self 1%positive 1 Toy.world probs /\
    token_of self 3 = "bad" /\ probs !! 3%nat = Some (1 # 32)%Q /\
    token_of self 5 = "very" /\ probs !! 5%nat = Some (1 # 16)%Q /\
    token_of self 2 = "good" /\ probs !! 2%nat = Some (1 # 8)%Q /\
    ~ (1 # 8 <= 1 # 32)%Q.
Proof.
  intros self. split; [by vm_compute|].
  exists (Toy.softmax Toy.logits). split.
  - exists (fst (mask_and_encode self 1%positive 1 Toy.world)),
      (Toy.toy_encode_plus "very [MASK] good" 8), [5; 1; 2; 0; 0; 0; 0; 0], 1%nat.
    split; [by vm_compute|]. split; by vm_compute.
  - repeat (split; [by vm_compute|]).
    intros H. by vm_compute in H.
Qed.

(** C3: the constructor never completes.  Its body stops at the call of
    [isinstance] with a single argument (or earlier, when the hub has no
    tokenizer for the argument), before any model is built; with the
    default model name the exception is [TypeError]. *)
Theorem constructor_raises_before_building_a_model
    (tokenizer_hub : pyval -> result Tokenizer)
    (model_hub : pyval -> result LanguageModel)
    (base_init : list (string * pyval) -> M ObjectState unit)
    (m : pyval) (len k : Z) (p : Q) (kwargs : list (string * pyval))
    (s : ObjectState) :
  (exists e, snd (__init__ tokenizer_hub model_hub base_init m len k p kwargs s)
             = Raise e) /\
  snd (init_body tokenizer_hub model_hub m len k p s)
    = match tokenizer_hub m with
      | Ok _ => Raise TypeError
      | Raise e => Raise e
      end /\
  models_built (fst (init_body tokenizer_hub model_hub m len k p s))
    = models_built s /\
  snd (Toy.construct (VStr "bert-base-uncased")) = Raise TypeError.
Proof.
  split; [apply init_raises|].
  rewrite init_body_run. simpl.
  destruct (tokenizer_hub m); simpl; repeat split; by vm_compute.
Qed.

(** C4, the run that exceeds the bound: with [max_candidates = 0] and
    threshold 1/100 the call returns one word, the first ranked one. *)
Theorem zero_max_candidates_returns_one_word :
  let self := Toy.transformation 0 (1 # 100) 8 in
  max_candidates self = 0 /\
  snd (Toy.run 0 (1 # 100) 8 1) = Ok ["[PAD]"] /\
  ~ (Z.of_nat (length ["[PAD]"]) <= max_candidates self).
Proof.
  intros self. split; [done|]. split; [by vm_compute|].
  simpl. lia.
Qed.

(** C5 at work: ["good"] is returned with threshold 1/50. *)
Lemma returned_words_exceed_min_confidence_run :
  let self := Toy.transformation 50 (1 # 50) 8 in
  exists w1 masked_attacked_text t inputs ids masked_index
         batch0 mask_token_logits _id p,
    insert_text_before_word_index 1%positive 1
      (mask_token (_lm_tokenizer self)) Toy.world = (w1, Ok masked_attacked_text) /\
    heap w1 !! masked_attacked_text = Some t /\
    inputs = _encode_text self (text t) /\
    input_ids inputs !! 0%nat = Some ids /\
    ids !! masked_index = Some (mask_token_id (_lm_tokenizer self)) /\
    (mask_token_id (_lm_tokenizer self) ∉ take masked_index ids) /\
    forward_logits (_language_model self) inputs !! 0%nat = Some batch0 /\
    batch0 !! masked_index = Some mask_token_logits /\
    convert_ids_to_tokens (_lm_tokenizer self) (Z.of_nat _id) = "good" /\
    Toy.softmax mask_token_logits !! _id = Some p /\
    (min_confidence self < p)%Q.
Proof.
  intros self.
  apply (returned_words_exceed_min_confidence
           Toy.is_one_word Toy.check_if_subword Toy.softmax
           self 1%positive 1 Toy.world ["bad"; "very"; "good"] "good").
  - vm_compute. reflexivity.
  - apply (bool_decide_unpack _). vm_compute. exact I.
Defined.

(** C6 at work: ["good"] is returned, ["##ly"] and ["new york"] are not. *)
Lemma returned_words_are_whole_single_words_run :
  Toy.is_one_word "good" = true /\
  Toy.check_if_subword "BertForMaskedLM" "good" = false.
Proof.
  apply (returned_words_are_whole_single_words
           Toy.is_one_word Toy.check_if_subword Toy.softmax
           (Toy.transformation 50 (1 # 50) 8) 1%positive 1 Toy.world
           ["bad"; "very"; "good"] "good").
  - vm_compute. reflexivity.
  - apply (bool_decide_unpack _). vm_compute. exact I.
Defined.

(** C9: [extra_repr_keys] returns the four listed keys; the first one,
    with its trailing space, is none of the attribute names the
    constructor assigns, and the constructor's body never writes it. *)
Theorem extra_repr_keys_first_key_is_no_attribute (self : WordInsertionMaskedLM) :
  extra_repr_keys self
    = ["masked_lm_name "; "max_length"; "max_candidates"; "min_confidence"] /\
  ("masked_lm_name " ∉ init_assigned_attrs) /\
  ~ Forall (fun key => key ∈ init_assigned_attrs) (extra_repr_keys self) /\
  forall tokenizer_hub model_hub m len k p s,
    attrs (fst (init_body tokenizer_hub model_hub m len k p s)) !! "masked_lm_name "
      = attrs s !! "masked_lm_name ".
Proof.
  assert ("masked_lm_name " ∉ init_assigned_attrs) as Hkey.
  { apply (bool_decide_unpack _). vm_compute. exact I. }
  split; [done|]. split; [done|]. split.
  - intros Hall. apply Forall_cons in Hall as [Hin _]. by apply Hkey.
  - intros. by apply init_body_assigns.
Qed.

(** C10 at work: the mask of ["very [MASK] good"] is found at position 1
    of eight encoded positions, and the model answers eight rows. *)
Lemma masked_index_within_logits_run :
  let self := Toy.transformation 50 (1 # 50) 8 in
  let ids := [5; 1; 2; 0; 0; 0; 0; 0] in
  let inputs := Toy.toy_encode_plus "very [MASK] good" 8 in
  (1 < length ids)%nat /\
  exists batch0 mask_token_logits r,
    py_getitem (forward_logits (_language_model self) inputs) 0 = Ok batch0 /\
    length batch0 = length ids /\
    py_getitem batch0 1 = Ok mask_token_logits /\
    snd (_get_new_words Toy.is_one_word Toy.check_if_subword Toy.softmax
           self 1%positive 1 Toy.world) = Ok r.
Proof.
  intros self ids inputs.
  apply (masked_index_within_logits
           Toy.is_one_word Toy.check_if_subword Toy.softmax
           self 1%positive 1 Toy.world
           (fst (mask_and_encode self 1%positive 1 Toy.world)) inputs ids 1%nat).
  - vm_compute. repeat constructor.
  - vm_compute. reflexivity.
  - vm_compute. reflexivity.
Defined.

(** * Further properties of the ranking loop and of [_get_new_words] *)

Lemma StronglySorted_pairwise {A} (R : relation A) (l : list A) i j x y :
  StronglySorted R l -> (i < j)%nat ->
  l !! i = Some x -> l !! j = Some y -> R x y.
Proof.
  intros Hs. revert i j. induction Hs as [|a l Hs IH Hall]; intros i j Hij Hi Hj.
  - done.
  - destruct j as [|j]; [lia|]. simpl in Hj. destruct i as [|i].
    + injection Hi as <-. rewrite Forall_forall in Hall.
      apply Hall. by eapply list_elem_of_lookup_2.
    + simpl in Hi. apply (IH i j); [lia|done..].
Qed.

Section RankLoopExact.

Variable is_one_word : string -> bool.
Variable check_if_subword : string -> string -> bool.

Local Abbreviation loop := (rank_loop is_one_word check_if_subword).
Local Abbreviation pass := (passes is_one_word check_if_subword).

Ltac round self probs i p :=
  cbn [rank_loop List.filter]; unfold passes, token_of, py_getitem;
  match goal with H : probs !! i = Some p |- _ => rewrite H end;
  destruct (word_ok is_one_word check_if_subword self
              (convert_ids_to_tokens (_lm_tokenizer self) (Z.of_nat i)));
  [destruct (Qgtb p (min_confidence self))|]; cbn [andb].

(** With [S n] words still to collect, the loop returns what it had,
    followed by the tokens of the first [S n] passing positions. *)
Lemma rank_loop_take self probs ranked acc n :
  Forall (fun i => (i < length probs)%nat) ranked ->
  max_candidates self = Z.of_nat (length acc + S n) ->
  loop self probs ranked acc =
    Ok (acc ++ map (token_of self) (take (S n) (List.filter (pass self probs) ranked))).
Proof.
  revert acc n. induction ranked as [|i rest IH]; intros acc n Hall Hk.
  - simpl. by rewrite app_nil_r.
  - apply Forall_cons in Hall as [Hi Hall].
    destruct (lookup_lt_is_Some_2 probs i Hi) as [p Hp].
    round self probs i p.
    + rewrite length_app. simpl length.
      destruct (Z.geb_spec (Z.of_nat (length acc + 1)) (max_candidates self)) as [Hge|Hlt].
      * assert (n = 0%nat) as -> by lia. simpl. by rewrite ?take_0.
      * destruct n as [|n]; [lia|].
        rewrite (IH (acc ++ [_]) n Hall) by (rewrite length_app; simpl; lia).
        by rewrite <- app_assoc.
    + destruct (Z.geb_spec (Z.of_nat (length acc)) (max_candidates self)); [lia|].
      by apply IH.
    + destruct (Z.geb_spec (Z.of_nat (length acc)) (max_candidates self)); [lia|].
      by apply IH.
Qed.

(** With a bound that is zero or negative the loop stops after its first
    round. *)
Lemma rank_loop_first_round_only self probs ranked :
  Forall (fun i => (i < length probs)%nat) ranked ->
  max_candidates self <= 0 ->
  loop self probs ranked [] =
    Ok (map (token_of self) (List.filter (pass self probs) (take 1 ranked))).
Proof.
  intros Hall Hk. destruct ranked as [|i rest]; [done|].
  apply Forall_cons in Hall as [Hi Hall].
  destruct (lookup_lt_is_Some_2 probs i Hi) as [p Hp].
  cbn [take]. round self probs i p.
  all: match goal with
       | |- context [Z.of_nat (length ?a) >=? ?k] =>
           destruct (Z.geb_spec (Z.of_nat (length a)) k) as [Hge|Hlt]
       end; try done.
  all: revert Hlt; simpl; lia.
Qed.

End RankLoopExact.

Section Unfolded.

Variable is_one_word : string -> bool.
Variable check_if_subword : string -> string -> bool.
Variable softmax : list Q -> list Q.

Local Abbreviation loop := (rank_loop is_one_word check_if_subword).
Local Abbreviation pass := (passes is_one_word check_if_subword).
Local Abbreviation gnw := (_get_new_words is_one_word check_if_subword softmax).

(** Once the distribution at the mask is known, the call is the loop
    over its ranked positions. *)
Lemma get_new_words_at_mask self current_text index w probs :
  probs_at_mask softmax self current_text index w probs ->
  snd (gnw self current_text index w) = loop self probs (argsort probs) [].
Proof.
  intros (w1 & inputs & ids & mi & Henc & Hidx & Hprobs).
  rewrite (get_new_words_mask_found _ _ _ _ _ _ _ _ _ _ _ Henc Hidx). simpl.
  by rewrite Hprobs.
Qed.

Lemma argsort_all_in_range (probs : list Q) :
  Forall (fun i => (i < length probs)%nat) (argsort probs).
Proof. apply Forall_forall. intros i. apply argsort_in_range. Qed.

End Unfolded.

Section FurtherProperties.

Variable is_one_word : string -> bool.
Variable check_if_subword : string -> string -> bool.
Variable softmax : list Q -> list Q.

(** X3: a returned list has at most [max(max_candidates, 1)] words, hence
    at most [max_candidates] words whenever [max_candidates >= 1]. *)
Theorem result_length_bound self current_text index w r :
  snd (_get_new_words is_one_word check_if_subword softmax
         self current_text index w) = Ok r ->
  Z.of_nat (length r) <= Z.max (max_candidates self) 1 /\
  (1 <= max_candidates self -> Z.of_nat (length r) <= max_candidates self).
Proof.
  intros Hr. apply get_new_words_result in Hr
    as [->|(probs & ids & _ & Hloop & _)]; [simpl; lia|].
  apply rank_loop_length in Hloop. simpl in Hloop. lia.
Qed.

(** X4: along a returned list the probabilities at the masked position
    never decrease: of two returned positions the earlier one has the
    smaller or equal probability. *)
Theorem result_in_ascending_probability_order self current_text index w r :
  snd (_get_new_words is_one_word check_if_subword softmax
         self current_text index w) = Ok r ->
  r <> [] ->
  exists probs ids,
    probs_at_mask softmax self current_text index w probs /\
    r = map (token_of self) ids /\
    forall (a b ia ib : nat),
      (a < b)%nat -> ids !! a = Some ia -> ids !! b = Some ib ->
      exists pa pb,
        probs !! ia = Some pa /\ probs !! ib = Some pb /\ (pa <= pb)%Q.
Proof.
  intros Hr Hne. apply get_new_words_result in Hr
    as [->|(probs & ids & Hprobs & _ & -> & Hsub & Hall)]; [done|].
  exists probs, ids. split; [done|]. split; [done|].
  intros a b ia ib Hab Ha Hb.
  rewrite Forall_forall in Hall.
  destruct (Hall ia) as (_ & pa & Hpa & _); [by eapply list_elem_of_lookup_2|].
  destruct (Hall ib) as (_ & pb & Hpb & _); [by eapply list_elem_of_lookup_2|].
  exists pa, pb. split; [done|]. split; [done|].
  assert (StronglySorted (key_le probs) ids) as Hs.
  { eapply StronglySorted_sublist; [done|]. apply argsort_ascending. }
  pose proof (StronglySorted_pairwise _ _ _ _ _ _ Hs Hab Ha Hb) as Hle.
  apply key_le_Qle in Hle.
  by rewrite (nth_lookup_Some _ _ 0%Q _ Hpa), (nth_lookup_Some _ _ 0%Q _ Hpb) in Hle.
Qed.

(** X6: raising [max_candidates] (from a value that is at least one) only
    appends to the returned list: the smaller result is a prefix of the
    larger one. *)
Theorem larger_bound_extends_result self current_text index w k1 k2 r1 r2 :
  1 <= k1 <= k2 ->
  snd (_get_new_words is_one_word check_if_subword softmax
         (set_max_candidates self k1) current_text index w) = Ok r1 ->
  snd (_get_new_words is_one_word check_if_subword softmax
         (set_max_candidates self k2) current_text index w) = Ok r2 ->
  r1 `prefix_of` r2.
Proof.
  intros Hk H1 H2.
  destruct (get_new_words_cases is_one_word check_if_subword softmax
              (set_max_candidates self k1) current_text index w)
    as [(w1 & e & _ & Hres)|[(w1 & inputs & ids & _ & _ & Hres)|
        (w1 & inputs & ids & mi & Henc & Hidx & _)]].
  - rewrite Hres in H1. done.
  - rewrite Hres in H1. injection H1 as <-. apply prefix_nil.
  - revert H1 H2.
    rewrite (get_new_words_mask_found is_one_word check_if_subword softmax
               (set_max_candidates self k1) _ _ _ _ _ _ _ Henc Hidx).
    rewrite (get_new_words_mask_found is_one_word check_if_subword softmax
               (set_max_candidates self k2) _ _ _ _ _ _ _ Henc Hidx).
    simpl.
    destruct (mask_probs_from softmax (forward_logits (_language_model self) inputs) mi)
      as [probs|e]; [|done].
    rewrite (rank_loop_take _ _ (set_max_candidates self k1) probs (argsort probs) []
               (Z.to_nat k1 - 1));
      [|apply argsort_all_in_range|simpl; lia].
    rewrite (rank_loop_take _ _ (set_max_candidates self k2) probs (argsort probs) []
               (Z.to_nat k2 - 1));
      [|apply argsort_all_in_range|simpl; lia].
    simpl. intros [= <-] [= <-].
    change (passes is_one_word check_if_subword (set_max_candidates self k2) probs)
      with (passes is_one_word check_if_subword (set_max_candidates self k1) probs).
    change (token_of (set_max_candidates self k2))
      with (token_of (set_max_candidates self k1)).
    set (l := List.filter _ _).
    assert (take (S (Z.to_nat k1 - 1)) l `prefix_of` take (S (Z.to_nat k2 - 1)) l)
      as [rest ->].
    { replace (take (S (Z.to_nat k1 - 1)) l)
        with (take (S (Z.to_nat k1 - 1)) (take (S (Z.to_nat k2 - 1)) l)).
      - apply prefix_take.
      - rewrite take_take. f_equal. lia. }
    rewrite map_app. by eexists.
Qed.

(** X7: no vocabulary position contributes twice to a returned list. *)
Theorem no_position_returned_twice self current_text index w r :
  snd (_get_new_words is_one_word check_if_subword softmax
         self current_text index w) = Ok r ->
  exists ids, r = map (token_of self) ids /\ NoDup ids.
Proof.
  intros Hr. apply get_new_words_result in Hr
    as [->|(probs & ids & _ & _ & -> & Hsub & _)].
  - exists []. split; [reflexivity|constructor].
  - exists ids. split; [reflexivity|].
    eapply sublist_NoDup; [|done].
    rewrite argsort_Permutation. apply NoDup_seq.
Qed.

End FurtherProperties.

Section ErrorsAndEdges.

Variable is_one_word : string -> bool.
Variable check_if_subword : string -> string -> bool.
Variable softmax : list Q -> list Q.

(** The loop does not look at the language model of the object. *)
Lemma rank_loop_set_language_model self m probs ranked acc :
  rank_loop is_one_word check_if_subword (set_language_model self m) probs ranked acc =
  rank_loop is_one_word check_if_subword self probs ranked acc.
Proof.
  revert acc. induction ranked as [|i rest IH]; intros acc; [done|].
  cbn [rank_loop]. unfold word_ok. cbn [set_language_model _lm_tokenizer
    masked_lm_name min_confidence max_candidates].
  destruct (is_one_word _ && negb (check_if_subword _ _)).
  - destruct (py_getitem probs i) as [p|e]; [|done].
    destruct (Qgtb p (min_confidence self));
      match goal with
      | |- context [Z.of_nat (length ?a) >=? ?k] =>
          destruct (Z.of_nat (length a) >=? k)
      end; try done; apply IH.
  - destruct (Z.of_nat (length acc) >=? max_candidates self); [done|apply IH].
Qed.

(** X8: when the model's answer has no row of logits at the masked
    position (no batch entry, or an entry shorter than the masked index),
    the call raises [IndexError] after its one invocation of the model:
    the handler around the index search does not cover the lookup. *)
Theorem missing_logits_row_raises_IndexError
    self current_text index w w1 inputs ids masked_index :
  mask_and_encode self current_text index w = (w1, Ok (inputs, ids)) ->
  py_index ids (mask_token_id (_lm_tokenizer self)) = Ok masked_index ->
  (forall batch0,
      forward_logits (_language_model self) inputs !! 0%nat = Some batch0 ->
      (length batch0 <= masked_index)%nat) ->
  _get_new_words is_one_word check_if_subword softmax
    self current_text index w =
    ({| heap := heap w1; lm_calls := lm_calls w1 ++ [inputs] |}, Raise IndexError).
Proof.
  intros Henc Hidx Hshort.
  rewrite (get_new_words_mask_found _ _ _ _ _ _ _ _ _ _ _ Henc Hidx).
  unfold mask_probs_from, py_getitem.
  destruct (forward_logits (_language_model self) inputs !! 0%nat)
    as [batch0|] eqn:Hb; [|done].
  by rewrite (lookup_ge_None_2 batch0 masked_index (Hshort batch0 eq_refl)).
Qed.

(** X10: when no probability at the masked position exceeds
    [min_confidence], the call returns the empty list, whatever
    [max_candidates] is. *)
Theorem threshold_above_all_probabilities_gives_empty_list
    self current_text index w probs :
  probs_at_mask softmax self current_text index w probs ->
  Forall (fun p => (p <= min_confidence self)%Q) probs ->
  snd (_get_new_words is_one_word check_if_subword softmax
         self current_text index w) = Ok [].
Proof.
  intros Hp Hall.
  assert (forall l, List.filter (passes is_one_word check_if_subword self probs) l = [])
    as Hnone.
  { induction l as [|i l IH]; [done|]. simpl.
    replace (passes is_one_word check_if_subword self probs i) with false; [done|].
    unfold passes. destruct (probs !! i) as [p|] eqn:Hi.
    - rewrite Forall_forall in Hall.
      pose proof (Hall p (list_elem_of_lookup_2 _ _ _ Hi)) as Hle.
      apply Qle_bool_iff in Hle. unfold Qgtb. rewrite Hle.
      by rewrite andb_false_r.
    - by rewrite andb_false_r. }
  rewrite (get_new_words_at_mask _ _ _ _ _ _ _ _ Hp).
  destruct (Z_lt_le_dec 0 (max_candidates self)) as [Hk|Hk].
  - rewrite (rank_loop_take _ _ self probs (argsort probs) []
               (Z.to_nat (max_candidates self) - 1));
      [|apply argsort_all_in_range|simpl; lia].
    by rewrite Hnone.
  - rewrite rank_loop_first_round_only; [|apply argsort_all_in_range|done].
    by rewrite Hnone.
Qed.

(** X12: the call uses the model's answer only at the row of the masked
    position: two models that agree there give the same result. *)
Theorem result_depends_on_logits_at_mask_only
    self m1 m2 current_text index w w1 inputs ids masked_index :
  mask_and_encode self current_text index w = (w1, Ok (inputs, ids)) ->
  py_index ids (mask_token_id (_lm_tokenizer self)) = Ok masked_index ->
  forward_logits m1 inputs !! 0%nat ≫= (.!! masked_index) =
  forward_logits m2 inputs !! 0%nat ≫= (.!! masked_index) ->
  snd (_get_new_words is_one_word check_if_subword softmax
         (set_language_model self m1) current_text index w) =
  snd (_get_new_words is_one_word check_if_subword softmax
         (set_language_model self m2) current_text index w).
Proof.
  intros Henc Hidx Hsame.
  rewrite (get_new_words_mask_found is_one_word check_if_subword softmax
             (set_language_model self m1) _ _ _ _ _ _ _ Henc Hidx).
  rewrite (get_new_words_mask_found is_one_word check_if_subword softmax
             (set_language_model self m2) _ _ _ _ _ _ _ Henc Hidx).
  simpl. unfold mask_probs_from, py_getitem.
  destruct (forward_logits m1 inputs !! 0%nat) as [b1|],
           (forward_logits m2 inputs !! 0%nat) as [b2|]; simpl in Hsame.
  - rewrite Hsame. destruct (b2 !! masked_index); [|done].
    by rewrite !rank_loop_set_language_model.
  - rewrite Hsame. done.
  - rewrite <- Hsame. done.
  - done.
Qed.

End ErrorsAndEdges.

(** X11: the constructor writes six attribute names only: whatever the
    base constructor left under any other name is still there when the
    constructor stops. *)
Theorem constructor_keeps_other_attributes
    (tokenizer_hub : pyval -> result Tokenizer)
    (model_hub : pyval -> result LanguageModel)
    (base_init : list (string * pyval) -> M ObjectState unit)
    (m : pyval) (len k : Z) (p : Q) (kwargs : list (string * pyval))
    (s : ObjectState) (name : string) :
  name ∉ init_assigned_attrs ->
  attrs (fst (__init__ tokenizer_hub model_hub base_init m len k p kwargs s)) !! name
    = attrs (fst (base_init kwargs s)) !! name.
Proof.
  intros Hname. unfold __init__, bind.
  destruct (base_init kwargs s) as [s1 [[]|e]]; simpl; [|done].
  by apply init_body_assigns.
Qed.

(** * The further properties on concrete runs *)

(** The distribution at the mask of ["very [MASK] good"], encoded to
    eight positions. *)
Lemma toy_probs_at_mask (k : Z) (p : Q) :
  probs_at_mask Toy.softmax (Toy.transformation k p 8) 1%positive 1 Toy.world
    (Toy.softmax Toy.logits).
Proof.
  exists (fst (mask_and_encode (Toy.transformation k p 8) 1%positive 1 Toy.world)),
    (Toy.toy_encode_plus "very [MASK] good" 8), [5; 1; 2; 0; 0; 0; 0; 0], 1%nat.
  split; [vm_compute; reflexivity|]. split; vm_compute; reflexivity.
Defined.

(** X3 at work. *)
Lemma result_length_bound_run :
  Z.of_nat (length ["bad"; "very"]) <= Z.max 2 1 /\
  (1 <= 2 -> Z.of_nat (length ["bad"; "very"]) <= 2).
Proof.
  apply (result_length_bound
           Toy.is_one_word Toy.check_if_subword Toy.softmax
           (Toy.transformation 2 (1 # 50) 8) 1%positive 1 Toy.world
           ["bad"; "very"]).
  vm_compute. reflexivity.
Defined.

(** X4 at work. *)
Lemma result_in_ascending_probability_order_run :
  let self := Toy.transformation 50 (1 # 50) 8 in
  exists probs ids,
    probs_at_mask Toy.softmax self 1%positive 1 Toy.world probs /\
    ["bad"; "very"; "good"] = map (token_of self) ids /\
    forall (a b ia ib : nat),
      (a < b)%nat -> ids !! a = Some ia -> ids !! b = Some ib ->
      exists pa pb,
        probs !! ia = Some pa /\ probs !! ib = Some pb /\ (pa <= pb)%Q.
Proof.
  intros self.
  apply (result_in_ascending_probability_order
           Toy.is_one_word Toy.check_if_subword Toy.softmax
           self 1%positive 1 Toy.world ["bad"; "very"; "good"]).
  - vm_compute. reflexivity.
  - discriminate.
Defined.

(** X6 at work: bound one against bound two. *)
Lemma larger_bound_extends_result_run :
  ["bad"] `prefix_of` ["bad"; "very"].
Proof.
  apply (larger_bound_extends_result
           Toy.is_one_word Toy.check_if_subword Toy.softmax
           (Toy.transformation 50 (1 # 50) 8) 1%positive 1 Toy.world 1 2).
  - lia.
  - vm_compute. reflexivity.
  - vm_compute. reflexivity.
Defined.

(** X7 at work. *)
Lemma no_position_returned_twice_run :
  exists ids,
    ["bad"; "very"; "good"]
      = map (token_of (Toy.transformation 50 (1 # 50) 8)) ids /\
    NoDup ids.
Proof.
  apply (no_position_returned_twice
           Toy.is_one_word Toy.check_if_subword Toy.softmax
           (Toy.transformation 50 (1 # 50) 8) 1%positive 1 Toy.world).
  vm_compute. reflexivity.
Defined.

(** X8 at work: a model that answers no logits. *)
Lemma missing_logits_row_raises_IndexError_run :
  let self := set_language_model (Toy.transformation 50 (1 # 50) 8) Toy.silent_model in
  let w1 := fst (mask_and_encode self 1%positive 1 Toy.world) in
  let inputs := Toy.toy_encode_plus "very [MASK] good" 8 in
  _get_new_words Toy.is_one_word Toy.check_if_subword Toy.softmax
    self 1%positive 1 Toy.world =
    ({| heap := heap w1; lm_calls := lm_calls w1 ++ [inputs] |}, Raise IndexError).
Proof.
  intros self w1 inputs.
  apply (missing_logits_row_raises_IndexError
           Toy.is_one_word Toy.check_if_subword Toy.softmax
           self 1%positive 1 Toy.world w1 inputs [5; 1; 2; 0; 0; 0; 0; 0] 1%nat).
  - vm_compute. reflexivity.
  - vm_compute. reflexivity.
  - intros batch0 H. vm_compute in H. discriminate H.
Defined.

(** X10 at work: threshold one. *)
Lemma threshold_above_all_probabilities_gives_empty_list_run :
  snd (Toy.run 50 1 8 1) = Ok [].
Proof.
  apply (threshold_above_all_probabilities_gives_empty_list
           Toy.is_one_word Toy.check_if_subword Toy.softmax
           (Toy.transformation 50 1 8) 1%positive 1 Toy.world
           (Toy.softmax Toy.logits) (toy_probs_at_mask 50 1)).
  vm_compute.
  repeat (constructor; [by vm_compute|]). constructor.
Defined.

(** X11 at work: the name ["device"] is none of the six. *)
Lemma constructor_keeps_other_attributes_run :
  attrs (fst (Toy.construct (VStr "bert-base-uncased"))) !! "device"
    = attrs (fst (Toy.base_init [] Toy.blank)) !! "device".
Proof.
  apply (constructor_keeps_other_attributes
           Toy.tokenizer_hub Toy.model_hub Toy.base_init
           (VStr "bert-base-uncased") 512 50 (5 # 10000) [] Toy.blank "device").
  apply (bool_decide_unpack _). vm_compute. exact I.
Defined.

(** X12 at work: a model that answers at the mask only. *)
Lemma result_depends_on_logits_at_mask_only_run :
  let self := Toy.transformation 50 (1 # 50) 8 in
  snd (_get_new_words Toy.is_one_word Toy.check_if_subword Toy.softmax
         (set_language_model self Toy.model) 1%positive 1 Toy.world) =
  snd (_get_new_words Toy.is_one_word Toy.check_if_subword Toy.softmax
         (set_language_model self Toy.mask_only_model) 1%positive 1 Toy.world).
Proof.
  intros self.
  apply (result_depends_on_logits_at_mask_only
           Toy.is_one_word Toy.check_if_subword Toy.softmax
           self Toy.model Toy.mask_only_model 1%positive 1 Toy.world
           (fst (mask_and_encode self 1%positive 1 Toy.world))
           (Toy.toy_encode_plus "very [MASK] good" 8)
           [5; 1; 2; 0; 0; 0; 0; 0] 1%nat).
  - vm_compute. reflexivity.
  - vm_compute. reflexivity.
  - vm_compute. reflexivity.
Defined.
